(** * ext4 superblock feature codecs (pkg/sentry/fs/ext4/disklayout/superblock.go)

    A shallow embedding of the feature-flag bitsets of the ext4 superblock
    and of their conversions to and from the packed on-disk words.

    Go's [uint32] and [uint16] values are integers of [Z] together with a
    range predicate; [&] is [Z.land], [|=] is [Z.lor], and the comparison
    [(f & bit) > 0] is [Z.gtb].  The structs of booleans are records, with
    the field names of the source. *)

From Stdlib Require Import ZArith Bool List Lia.
Import ListNotations.

Local Open Scope Z_scope.

(** ** Machine integers *)

Definition is_uint32 (n : Z) : Prop := 0 <= n < 2 ^ 32.
Definition is_uint16 (n : Z) : Prop := 0 <= n < 2 ^ 16.

(** Go's [^uint32(x)]: bitwise complement inside 32 bits. *)
Definition uint32_not (x : Z) : Z := Z.lxor x 0xFFFFFFFF.

(** ** Superblock compatible features *)

Definition SbDirPrealloc : Z := 0x1.
Definition SbImagicInodes : Z := 0x2.
Definition SbHasJournal : Z := 0x4.
Definition SbExtAttr : Z := 0x8.
Definition SbResizeInode : Z := 0x10.
Definition SbDirIndex : Z := 0x20.
Definition SbLazyBg : Z := 0x40.
Definition SbExcludeInode : Z := 0x80.
Definition SbExcludeBitmap : Z := 0x100.
Definition SbSparseV2 : Z := 0x200.

Record CompatFeatures : Type := mkCompatFeatures {
  DirPrealloc : bool;
  ImagicInodes : bool;
  HasJournal : bool;
  ExtAttr : bool;
  ResizeInode : bool;
  DirIndex : bool;
  LazyBg : bool;
  ExcludeInode : bool;
  ExcludeBitmap : bool;
  SparseV2 : bool
}.

(** [func (f CompatFeatures) ToInt() uint32] *)
Definition CompatFeatures_ToInt (f : CompatFeatures) : Z :=
  let res := 0 in
  let res := if DirPrealloc f then Z.lor res SbDirPrealloc else res in
  let res := if ImagicInodes f then Z.lor res SbImagicInodes else res in
  let res := if HasJournal f then Z.lor res SbHasJournal else res in
  let res := if ExtAttr f then Z.lor res SbExtAttr else res in
  let res := if ResizeInode f then Z.lor res SbResizeInode else res in
  let res := if DirIndex f then Z.lor res SbDirIndex else res in
  let res := if LazyBg f then Z.lor res SbLazyBg else res in
  let res := if ExcludeInode f then Z.lor res SbExcludeInode else res in
  let res := if ExcludeBitmap f then Z.lor res SbExcludeBitmap else res in
  let res := if SparseV2 f then Z.lor res SbSparseV2 else res in
  res.

(** [func CompatFeaturesFromInt(f uint32) CompatFeatures] *)
Definition CompatFeaturesFromInt (f : Z) : CompatFeatures :=
  {| DirPrealloc := Z.land f SbDirPrealloc >? 0;
     ImagicInodes := Z.land f SbImagicInodes >? 0;
     HasJournal := Z.land f SbHasJournal >? 0;
     ExtAttr := Z.land f SbExtAttr >? 0;
     ResizeInode := Z.land f SbResizeInode >? 0;
     DirIndex := Z.land f SbDirIndex >? 0;
     LazyBg := Z.land f SbLazyBg >? 0;
     ExcludeInode := Z.land f SbExcludeInode >? 0;
     ExcludeBitmap := Z.land f SbExcludeBitmap >? 0;
     SparseV2 := Z.land f SbSparseV2 >? 0 |}.

(** ** Superblock incompatible features *)

Definition SbCompression : Z := 0x1.
Definition SbDirentFileType : Z := 0x2.
Definition SbRecovery : Z := 0x4.
Definition SbJournalDev : Z := 0x8.
Definition SbMetaBG : Z := 0x10.
Definition SbExtents : Z := 0x40.
Definition SbIs64Bit : Z := 0x80.
Definition SbMMP : Z := 0x100.
Definition SbFlexBg : Z := 0x200.
Definition SbExtAttrInode : Z := 0x400.
Definition SbDirData : Z := 0x1000.
Definition SbCsumSeed : Z := 0x2000.
Definition SbLargeDir : Z := 0x4000.
Definition SbInlineData : Z := 0x8000.
Definition SbEncrypted : Z := 0x10000.

Record IncompatFeatures : Type := mkIncompatFeatures {
  Compression : bool;
  DirentFileType : bool;
  Recovery : bool;
  JournalDev : bool;
  MetaBG : bool;
  Extents : bool;
  Is64Bit : bool;
  MMP : bool;
  FlexBg : bool;
  ExtAttrInode : bool;
  DirData : bool;
  CsumSeed : bool;
  LargeDir : bool;
  InlineData : bool;
  Encrypted : bool
}.

(** [func (f IncompatFeatures) ToInt() uint32] *)
Definition IncompatFeatures_ToInt (f : IncompatFeatures) : Z :=
  let res := 0 in
  let res := if Compression f then Z.lor res SbCompression else res in
  let res := if DirentFileType f then Z.lor res SbDirentFileType else res in
  let res := if Recovery f then Z.lor res SbRecovery else res in
  let res := if JournalDev f then Z.lor res SbJournalDev else res in
  let res := if MetaBG f then Z.lor res SbMetaBG else res in
  let res := if Extents f then Z.lor res SbExtents else res in
  let res := if Is64Bit f then Z.lor res SbIs64Bit else res in
  let res := if MMP f then Z.lor res SbMMP else res in
  let res := if FlexBg f then Z.lor res SbFlexBg else res in
  let res := if ExtAttrInode f then Z.lor res SbExtAttrInode else res in
  let res := if DirData f then Z.lor res SbDirData else res in
  let res := if CsumSeed f then Z.lor res SbCsumSeed else res in
  let res := if LargeDir f then Z.lor res SbLargeDir else res in
  let res := if InlineData f then Z.lor res SbInlineData else res in
  let res := if Encrypted f then Z.lor res SbEncrypted else res in
  res.

(** [func IncompatFeaturesFromInt(f uint32) IncompatFeatures] *)
Definition IncompatFeaturesFromInt (f : Z) : IncompatFeatures :=
  {| Compression := Z.land f SbCompression >? 0;
     DirentFileType := Z.land f SbDirentFileType >? 0;
     Recovery := Z.land f SbRecovery >? 0;
     JournalDev := Z.land f SbJournalDev >? 0;
     MetaBG := Z.land f SbMetaBG >? 0;
     Extents := Z.land f SbExtents >? 0;
     Is64Bit := Z.land f SbIs64Bit >? 0;
     MMP := Z.land f SbMMP >? 0;
     FlexBg := Z.land f SbFlexBg >? 0;
     ExtAttrInode := Z.land f SbExtAttrInode >? 0;
     DirData := Z.land f SbDirData >? 0;
     CsumSeed := Z.land f SbCsumSeed >? 0;
     LargeDir := Z.land f SbLargeDir >? 0;
     InlineData := Z.land f SbInlineData >? 0;
     Encrypted := Z.land f SbEncrypted >? 0 |}.

(** ** Superblock readonly compatible features *)

Definition SbSparse : Z := 0x1.
Definition SbLargeFile : Z := 0x2.
Definition SbBTreeDir : Z := 0x4.
Definition SbHugeFile : Z := 0x8.
Definition SbGdtCsum : Z := 0x10.
Definition SbDirNlink : Z := 0x20.
Definition SbExtraIsize : Z := 0x40.
Definition SbHasSnapshot : Z := 0x80.
Definition SbQuota : Z := 0x100.
Definition SbBigalloc : Z := 0x200.
Definition SbMetadataCsum : Z := 0x400.
Definition SbReplica : Z := 0x800.
Definition SbReadOnly : Z := 0x1000.
Definition SbProject : Z := 0x2000.

Record RoCompatFeatures : Type := mkRoCompatFeatures {
  Sparse : bool;
  LargeFile : bool;
  BTreeDir : bool;
  HugeFile : bool;
  GdtCsum : bool;
  DirNlink : bool;
  ExtraIsize : bool;
  HasSnapshot : bool;
  Quota : bool;
  Bigalloc : bool;
  MetadataCsum : bool;
  Replica : bool;
  ReadOnly : bool;
  Project : bool
}.

(** [func (f RoCompatFeatures) ToInt() uint32] *)
Definition RoCompatFeatures_ToInt (f : RoCompatFeatures) : Z :=
  let res := 0 in
  let res := if Sparse f then Z.lor res SbSparse else res in
  let res := if LargeFile f then Z.lor res SbLargeFile else res in
  let res := if BTreeDir f then Z.lor res SbBTreeDir else res in
  let res := if HugeFile f then Z.lor res SbHugeFile else res in
  let res := if GdtCsum f then Z.lor res SbGdtCsum else res in
  let res := if DirNlink f then Z.lor res SbDirNlink else res in
  let res := if ExtraIsize f then Z.lor res SbExtraIsize else res in
  let res := if HasSnapshot f then Z.lor res SbHasSnapshot else res in
  let res := if Quota f then Z.lor res SbQuota else res in
  let res := if Bigalloc f then Z.lor res SbBigalloc else res in
  let res := if MetadataCsum f then Z.lor res SbMetadataCsum else res in
  let res := if Replica f then Z.lor res SbReplica else res in
  let res := if ReadOnly f then Z.lor res SbReadOnly else res in
  let res := if Project f then Z.lor res SbProject else res in
  res.

(** [func RoCompatFeaturesFromInt(f uint32) RoCompatFeatures] *)
Definition RoCompatFeaturesFromInt (f : Z) : RoCompatFeatures :=
  {| Sparse := Z.land f SbSparse >? 0;
     LargeFile := Z.land f SbLargeFile >? 0;
     BTreeDir := Z.land f SbBTreeDir >? 0;
     HugeFile := Z.land f SbHugeFile >? 0;
     GdtCsum := Z.land f SbGdtCsum >? 0;
     DirNlink := Z.land f SbDirNlink >? 0;
     ExtraIsize := Z.land f SbExtraIsize >? 0;
     HasSnapshot := Z.land f SbHasSnapshot >? 0;
     Quota := Z.land f SbQuota >? 0;
     Bigalloc := Z.land f SbBigalloc >? 0;
     MetadataCsum := Z.land f SbMetadataCsum >? 0;
     Replica := Z.land f SbReplica >? 0;
     ReadOnly := Z.land f SbReadOnly >? 0;
     Project := Z.land f SbProject >? 0 |}.

(** ** Operating system codes and error policy *)

(** [type OSCode uint32] *)
Definition OSCode : Type := Z.

Definition Linux : OSCode := 0.
Definition Hurd : OSCode := 1.
Definition Masix : OSCode := 2.
Definition FreeBSD : OSCode := 3.
Definition Lites : OSCode := 4.

(** [type SbErrorPolicy uint16] *)
Definition SbErrorPolicy : Type := Z.

Definition Continue : SbErrorPolicy := 1.
Definition RemountReadOnly : SbErrorPolicy := 2.
Definition Panic : SbErrorPolicy := 3.

(** ** Superblock state *)

Definition SbUmounted : Z := 0x1.
Definition SbError : Z := 0x2.
Definition SbOrphanRecovery : Z := 0x4.

Record SbState : Type := mkSbState {
  Umounted : bool;
  Error : bool;
  OrphanRecovery : bool
}.

(** [func (s SbState) ToInt() uint16] *)
Definition SbState_ToInt (s : SbState) : Z :=
  let res := 0 in
  let res := if Umounted s then Z.lor res SbUmounted else res in
  let res := if Error s then Z.lor res SbError else res in
  let res := if OrphanRecovery s then Z.lor res SbOrphanRecovery else res in
  res.

(** [func SbStateFromInt(state uint16) SbState] *)
Definition SbStateFromInt (state : Z) : SbState :=
  {| Umounted := Z.land state SbUmounted >? 0;
     Error := Z.land state SbError >? 0;
     OrphanRecovery := Z.land state SbOrphanRecovery >? 0 |}.

(** ** The encoders as the specification words them

    "OR together the bit value for every field that is true; fields that are
    false contribute nothing": a static table pairs every field with its bit
    constant, the fields that hold are selected and their constants are
    OR-ed together.  This follows the specification's sentence and is
    compared with the [ToInt] methods below. *)

Section FieldTables.
Context {A : Type}.

Definition FieldTable : Type := list ((A -> bool) * Z).

Definition true_field_bits (tbl : FieldTable) (s : A) : list Z :=
  map snd (filter (fun e => fst e s) tbl).

Definition or_of_true_fields (tbl : FieldTable) (s : A) : Z :=
  fold_right Z.lor 0 (true_field_bits tbl s).

(** The shape every [ToInt] method has: one guarded [res |= bit] per
    table entry, in order. *)
Definition or_in_sequence (tbl : FieldTable) (s : A) (res : Z) : Z :=
  fold_left
    (fun (res : Z) (e : (A -> bool) * Z) =>
       if fst e s then Z.lor res (snd e) else res)
    tbl res.

(** The OR of every bit constant of a table: its known-bits mask. *)
Definition known_bits (tbl : FieldTable) : Z :=
  fold_right Z.lor 0 (map snd tbl).
End FieldTables.

Arguments FieldTable A : clear implicits.

Definition CompatFeatures_bits : FieldTable CompatFeatures :=
  [ (DirPrealloc, SbDirPrealloc); (ImagicInodes, SbImagicInodes);
    (HasJournal, SbHasJournal); (ExtAttr, SbExtAttr);
    (ResizeInode, SbResizeInode); (DirIndex, SbDirIndex);
    (LazyBg, SbLazyBg); (ExcludeInode, SbExcludeInode);
    (ExcludeBitmap, SbExcludeBitmap); (SparseV2, SbSparseV2) ].

Definition IncompatFeatures_bits : FieldTable IncompatFeatures :=
  [ (Compression, SbCompression); (DirentFileType, SbDirentFileType);
    (Recovery, SbRecovery); (JournalDev, SbJournalDev); (MetaBG, SbMetaBG);
    (Extents, SbExtents); (Is64Bit, SbIs64Bit); (MMP, SbMMP);
    (FlexBg, SbFlexBg); (ExtAttrInode, SbExtAttrInode); (DirData, SbDirData);
    (CsumSeed, SbCsumSeed); (LargeDir, SbLargeDir);
    (InlineData, SbInlineData); (Encrypted, SbEncrypted) ].

Definition RoCompatFeatures_bits : FieldTable RoCompatFeatures :=
  [ (Sparse, SbSparse); (LargeFile, SbLargeFile); (BTreeDir, SbBTreeDir);
    (HugeFile, SbHugeFile); (GdtCsum, SbGdtCsum); (DirNlink, SbDirNlink);
    (ExtraIsize, SbExtraIsize); (HasSnapshot, SbHasSnapshot);
    (Quota, SbQuota); (Bigalloc, SbBigalloc);
    (MetadataCsum, SbMetadataCsum); (Replica, SbReplica);
    (ReadOnly, SbReadOnly); (Project, SbProject) ].

Definition SbState_bits : FieldTable SbState :=
  [ (Umounted, SbUmounted); (Error, SbError);
    (OrphanRecovery, SbOrphanRecovery) ].

(** ** Mount admission *)





(** ** Zero values

    Go's zero value of each struct, [CompatFeatures{}] and the like: every
    field false. *)

Definition CompatFeatures_zero : CompatFeatures :=
  {| DirPrealloc := false; ImagicInodes := false; HasJournal := false;
     ExtAttr := false; ResizeInode := false; DirIndex := false;
     LazyBg := false; ExcludeInode := false; ExcludeBitmap := false;
     SparseV2 := false |}.

Definition IncompatFeatures_zero : IncompatFeatures :=
  {| Compression := false; DirentFileType := false; Recovery := false;
     JournalDev := false; MetaBG := false; Extents := false;
     Is64Bit := false; MMP := false; FlexBg := false;
     ExtAttrInode := false; DirData := false; CsumSeed := false;
     LargeDir := false; InlineData := false; Encrypted := false |}.

Definition RoCompatFeatures_zero : RoCompatFeatures :=
  {| Sparse := false; LargeFile := false; BTreeDir := false;
     HugeFile := false; GdtCsum := false; DirNlink := false;
     ExtraIsize := false; HasSnapshot := false; Quota := false;
     Bigalloc := false; MetadataCsum := false; Replica := false;
     ReadOnly := false; Project := false |}.

Definition SbState_zero : SbState :=
  {| Umounted := false; Error := false; OrphanRecovery := false |}.

(** * Bit-level facts *)

Lemma land_pow2 (x k : Z) :
  0 <= k -> Z.land x (2 ^ k) = if Z.testbit x k then 2 ^ k else 0.
Proof.
  intros Hk. apply Z.bits_inj'. intros i Hi.
  rewrite Z.land_spec, Z.pow2_bits_eqb by assumption.
  destruct (Z.eqb_spec k i) as [->|Hne].
  - rewrite andb_true_r. destruct (Z.testbit x i).
    + now rewrite Z.pow2_bits_true.
    + now rewrite Z.bits_0.
  - rewrite andb_false_r. destruct (Z.testbit x k).
    + rewrite Z.pow2_bits_false; auto.
    + now rewrite Z.bits_0.
Qed.

Lemma gtb_land_pow2 (x k : Z) :
  0 <= k -> (Z.land x (2 ^ k) >? 0) = Z.testbit x k.
Proof.
  intros Hk. rewrite land_pow2 by assumption.
  assert (0 < 2 ^ k) by (apply Z.pow_pos_nonneg; lia).
  destruct (Z.testbit x k).
  - apply Z.gtb_lt; lia.
  - reflexivity.
Qed.

(** [(x & bit) > 0] and [(x & bit) != 0] agree on every integer. *)
Lemma gtb_land_neq0 (x c : Z) :
  0 <= c -> (Z.land x c >? 0) = negb (Z.land x c =? 0).
Proof.
  intros Hc.
  assert (0 <= Z.land x c) by (apply Z.land_nonneg; auto).
  rewrite Z.gtb_ltb.
  destruct (Z.ltb_spec 0 (Z.land x c)), (Z.eqb_spec (Z.land x c) 0);
    simpl; auto; lia.
Qed.

(** A guarded [res |= bit] on a decoded field ORs the masked word in. *)
Lemma guarded_or_land (x res k : Z) :
  0 <= k ->
  (if Z.land x (2 ^ k) >? 0 then Z.lor res (2 ^ k) else res)
  = Z.lor res (Z.land x (2 ^ k)).
Proof.
  intros Hk. rewrite gtb_land_pow2, land_pow2 by assumption.
  destruct (Z.testbit x k); [reflexivity | now rewrite Z.lor_0_r].
Qed.

Lemma guarded_or (b : bool) (res c : Z) :
  (if b then Z.lor res c else res) = Z.lor res (if b then c else 0).
Proof. destruct b; [reflexivity | now rewrite Z.lor_0_r]. Qed.

Lemma testbit_guard (b : bool) (c i : Z) :
  Z.testbit (if b then c else 0) i = b && Z.testbit c i.
Proof. destruct b; [reflexivity | apply Z.bits_0]. Qed.

Lemma gtb_land_bit (x c k : Z) :
  0 <= k -> c = 2 ^ k -> (Z.land x c >? 0) = Z.testbit x k.
Proof. intros Hk ->. now apply gtb_land_pow2. Qed.

Lemma land_ones32 (n : Z) : is_uint32 n -> Z.land n 0xFFFFFFFF = n.
Proof.
  intros Hn. change 0xFFFFFFFF with (Z.ones 32).
  rewrite Z.land_ones by lia. now apply Z.mod_small.
Qed.

(** A word with no bit outside [mask] is its own masked value. *)
Lemma land_known_bits (n mask : Z) :
  is_uint32 n -> Z.land mask 0xFFFFFFFF = mask ->
  Z.land n (uint32_not mask) = 0 -> Z.land n mask = n.
Proof.
  intros Hn Hmask Hout.
  rewrite <- (land_ones32 n Hn) at 2.
  replace 0xFFFFFFFF with (Z.lor mask (uint32_not mask)).
  - now rewrite Z.land_lor_distr_r, Hout, Z.lor_0_r.
  - unfold uint32_not. apply Z.bits_inj. intros i.
    rewrite Z.lor_spec, Z.lxor_spec.
    rewrite <- Hmask at 1 2. rewrite Z.land_spec.
    destruct (Z.testbit mask i), (Z.testbit 0xFFFFFFFF i); reflexivity.
Qed.

(** * Field tables *)

Section FieldTableFacts.
Context {A : Type}.
Implicit Types (tbl : FieldTable A) (s : A).

Lemma testbit_or_in_sequence tbl s res i :
  Z.testbit (or_in_sequence tbl s res) i
  = Z.testbit res i || existsb (fun e => fst e s && Z.testbit (snd e) i) tbl.
Proof.
  unfold or_in_sequence. revert res.
  induction tbl as [|[field bit] tbl IH]; intros res; simpl.
  - now rewrite orb_false_r.
  - rewrite IH, guarded_or, Z.lor_spec, testbit_guard.
    now rewrite orb_assoc.
Qed.

Lemma testbit_or_of_true_fields tbl s i :
  Z.testbit (or_of_true_fields tbl s) i
  = existsb (fun e => fst e s && Z.testbit (snd e) i) tbl.
Proof.
  unfold or_of_true_fields, true_field_bits.
  induction tbl as [|[field bit] tbl IH]; simpl.
  - apply Z.bits_0.
  - destruct (field s); simpl.
    + now rewrite Z.lor_spec, IH.
    + exact IH.
Qed.

(** The sequence of guarded ORs computes the OR of the selected bits. *)
Lemma or_in_sequence_spec tbl s :
  or_in_sequence tbl s 0 = or_of_true_fields tbl s.
Proof.
  apply Z.bits_inj. intros i.
  rewrite testbit_or_in_sequence, testbit_or_of_true_fields.
  now rewrite Z.bits_0.
Qed.

(** On a struct whose fields were decoded from [n], the guarded ORs
    rebuild [n] restricted to the table's bits. *)
Lemma or_in_sequence_decoded tbl s n res :
  Forall (fun e => snd e = 2 ^ Z.log2 (snd e)
                   /\ fst e s = (Z.land n (snd e) >? 0)) tbl ->
  or_in_sequence tbl s res = Z.lor res (Z.land n (known_bits tbl)).
Proof.
  unfold or_in_sequence, known_bits. intros Htbl. revert res.
  induction Htbl as [|[field bit] tbl [Hbit Hfield] _ IH]; intros res; simpl.
  - now rewrite Z.land_0_r, Z.lor_0_r.
  - simpl in Hbit, Hfield. rewrite IH, Hfield, Hbit.
    rewrite guarded_or_land by apply Z.log2_nonneg.
    now rewrite Z.land_lor_distr_r, Z.lor_assoc.
Qed.
End FieldTableFacts.

(** Rewrites every decoded field [(x & bit) > 0] into a bit test. *)
Ltac decode_bits :=
  repeat match goal with
  | |- context [Z.land ?x ?c >? 0] =>
      let k := eval cbv in (Z.log2 c) in
      rewrite (gtb_land_bit x c k ltac:(lia) eq_refl)
  end.

Ltac bool_tidy :=
  cbn; rewrite ?andb_false_r, ?andb_true_r, ?orb_false_r, ?orb_false_l.

Ltac table_decoded := repeat constructor.

(** ** The [ToInt] methods follow their tables *)

Lemma CompatFeatures_ToInt_table (s : CompatFeatures) :
  CompatFeatures_ToInt s = or_in_sequence CompatFeatures_bits s 0.
Proof. reflexivity. Qed.

Lemma IncompatFeatures_ToInt_table (s : IncompatFeatures) :
  IncompatFeatures_ToInt s = or_in_sequence IncompatFeatures_bits s 0.
Proof. reflexivity. Qed.

Lemma RoCompatFeatures_ToInt_table (s : RoCompatFeatures) :
  RoCompatFeatures_ToInt s = or_in_sequence RoCompatFeatures_bits s 0.
Proof. reflexivity. Qed.

Lemma SbState_ToInt_table (s : SbState) :
  SbState_ToInt s = or_in_sequence SbState_bits s 0.
Proof. reflexivity. Qed.

Lemma known_bits_values :
  known_bits CompatFeatures_bits = 0x3FF
  /\ known_bits IncompatFeatures_bits = 0x1F7DF
  /\ known_bits RoCompatFeatures_bits = 0x3FFF
  /\ known_bits SbState_bits = 0x7.
Proof. repeat split. Qed.

(** ** Encoding a decoded word masks it *)

Lemma CompatFeatures_encode_decode (n : Z) :
  CompatFeatures_ToInt (CompatFeaturesFromInt n) = Z.land n 0x3FF.
Proof.
  rewrite CompatFeatures_ToInt_table.
  rewrite (or_in_sequence_decoded _ _ n) by table_decoded.
  reflexivity.
Qed.

Lemma IncompatFeatures_encode_decode (n : Z) :
  IncompatFeatures_ToInt (IncompatFeaturesFromInt n) = Z.land n 0x1F7DF.
Proof.
  rewrite IncompatFeatures_ToInt_table.
  rewrite (or_in_sequence_decoded _ _ n) by table_decoded.
  reflexivity.
Qed.

Lemma RoCompatFeatures_encode_decode (n : Z) :
  RoCompatFeatures_ToInt (RoCompatFeaturesFromInt n) = Z.land n 0x3FFF.
Proof.
  rewrite RoCompatFeatures_ToInt_table.
  rewrite (or_in_sequence_decoded _ _ n) by table_decoded.
  reflexivity.
Qed.

Lemma SbState_encode_decode (n : Z) :
  SbState_ToInt (SbStateFromInt n) = Z.land n 0x7.
Proof.
  rewrite SbState_ToInt_table.
  rewrite (or_in_sequence_decoded _ _ n) by table_decoded.
  reflexivity.
Qed.

(** ** Bit tests on an encoded struct *)

Lemma CompatFeatures_ToInt_testbit (s : CompatFeatures) (i : Z) :
  Z.testbit (CompatFeatures_ToInt s) i
  = existsb (fun e => fst e s && Z.testbit (snd e) i) CompatFeatures_bits.
Proof.
  rewrite CompatFeatures_ToInt_table, testbit_or_in_sequence.
  now rewrite Z.bits_0.
Qed.

Lemma IncompatFeatures_ToInt_testbit (s : IncompatFeatures) (i : Z) :
  Z.testbit (IncompatFeatures_ToInt s) i
  = existsb (fun e => fst e s && Z.testbit (snd e) i) IncompatFeatures_bits.
Proof.
  rewrite IncompatFeatures_ToInt_table, testbit_or_in_sequence.
  now rewrite Z.bits_0.
Qed.

Lemma RoCompatFeatures_ToInt_testbit (s : RoCompatFeatures) (i : Z) :
  Z.testbit (RoCompatFeatures_ToInt s) i
  = existsb (fun e => fst e s && Z.testbit (snd e) i) RoCompatFeatures_bits.
Proof.
  rewrite RoCompatFeatures_ToInt_table, testbit_or_in_sequence.
  now rewrite Z.bits_0.
Qed.

Lemma SbState_ToInt_testbit (s : SbState) (i : Z) :
  Z.testbit (SbState_ToInt s) i
  = existsb (fun e => fst e s && Z.testbit (snd e) i) SbState_bits.
Proof.
  rewrite SbState_ToInt_table, testbit_or_in_sequence.
  now rewrite Z.bits_0.
Qed.

(** ** Decoding an encoded struct *)

Lemma CompatFeatures_decode_encode (s : CompatFeatures) :
  CompatFeaturesFromInt (CompatFeatures_ToInt s) = s.
Proof.
  destruct s. unfold CompatFeaturesFromInt. decode_bits.
  rewrite !CompatFeatures_ToInt_testbit. bool_tidy. reflexivity.
Qed.

Lemma IncompatFeatures_decode_encode (s : IncompatFeatures) :
  IncompatFeaturesFromInt (IncompatFeatures_ToInt s) = s.
Proof.
  destruct s. unfold IncompatFeaturesFromInt. decode_bits.
  rewrite !IncompatFeatures_ToInt_testbit. bool_tidy. reflexivity.
Qed.

Lemma RoCompatFeatures_decode_encode (s : RoCompatFeatures) :
  RoCompatFeaturesFromInt (RoCompatFeatures_ToInt s) = s.
Proof.
  destruct s. unfold RoCompatFeaturesFromInt. decode_bits.
  rewrite !RoCompatFeatures_ToInt_testbit. bool_tidy. reflexivity.
Qed.

Lemma SbState_decode_encode (s : SbState) :
  SbStateFromInt (SbState_ToInt s) = s.
Proof.
  destruct s. unfold SbStateFromInt. decode_bits.
  rewrite !SbState_ToInt_testbit. bool_tidy. reflexivity.
Qed.

Lemma land_bit (x c k : Z) :
  0 <= k -> c = 2 ^ k -> Z.land x c = if Z.testbit x k then c else 0.
Proof. intros Hk ->. now apply land_pow2. Qed.

(** Masks a single table bit out of an encoded struct. *)
Ltac encoded_bit testbit_lemma s :=
  cbn [fst snd];
  match goal with
  | |- Z.land ?x ?c = _ =>
      let k := eval cbv in (Z.log2 c) in
      rewrite (land_bit x c k ltac:(lia) eq_refl)
  end;
  rewrite testbit_lemma; destruct s; bool_tidy; reflexivity.

Ltac each_entry tac :=
  repeat (apply Forall_cons; [ tac | ]); apply Forall_nil.

Lemma CompatFeatures_ToInt_bits (s : CompatFeatures) :
  Forall (fun e : (CompatFeatures -> bool) * Z =>
            Z.land (CompatFeatures_ToInt s) (snd e) = if fst e s then snd e else 0)
         CompatFeatures_bits.
Proof. each_entry ltac:(encoded_bit CompatFeatures_ToInt_testbit s). Qed.

Lemma IncompatFeatures_ToInt_bits (s : IncompatFeatures) :
  Forall (fun e : (IncompatFeatures -> bool) * Z =>
            Z.land (IncompatFeatures_ToInt s) (snd e) = if fst e s then snd e else 0)
         IncompatFeatures_bits.
Proof. each_entry ltac:(encoded_bit IncompatFeatures_ToInt_testbit s). Qed.

Lemma RoCompatFeatures_ToInt_bits (s : RoCompatFeatures) :
  Forall (fun e : (RoCompatFeatures -> bool) * Z =>
            Z.land (RoCompatFeatures_ToInt s) (snd e) = if fst e s then snd e else 0)
         RoCompatFeatures_bits.
Proof. each_entry ltac:(encoded_bit RoCompatFeatures_ToInt_testbit s). Qed.



(** ** The encoders stay inside their integer type

    [|=] with constants below [2 ^ 32] (below [2 ^ 16] for the state) never
    leaves the type, so no wrap-around arises in [ToInt]. *)

Lemma land_below (x mask w : Z) :
  0 <= w -> Z.land mask (Z.ones w) = mask -> 0 <= Z.land x mask < 2 ^ w.
Proof.
  intros Hw Hmask. rewrite <- Hmask, Z.land_assoc, Z.land_ones by assumption.
  apply Z.mod_pos_bound. now apply Z.pow_pos_nonneg.
Qed.

Lemma CompatFeatures_ToInt_uint32 (s : CompatFeatures) :
  is_uint32 (CompatFeatures_ToInt s).
Proof.
  rewrite <- (CompatFeatures_decode_encode s) at 1.
  rewrite CompatFeatures_encode_decode. now apply land_below.
Qed.

Lemma IncompatFeatures_ToInt_uint32 (s : IncompatFeatures) :
  is_uint32 (IncompatFeatures_ToInt s).
Proof.
  rewrite <- (IncompatFeatures_decode_encode s) at 1.
  rewrite IncompatFeatures_encode_decode. now apply land_below.
Qed.

Lemma RoCompatFeatures_ToInt_uint32 (s : RoCompatFeatures) :
  is_uint32 (RoCompatFeatures_ToInt s).
Proof.
  rewrite <- (RoCompatFeatures_decode_encode s) at 1.
  rewrite RoCompatFeatures_encode_decode. now apply land_below.
Qed.

Lemma SbState_ToInt_uint16 (s : SbState) :
  is_uint16 (SbState_ToInt s).
Proof.
  rewrite <- (SbState_decode_encode s) at 1.
  rewrite SbState_encode_decode. now apply land_below.
Qed.

(** * The claims *)

(** C1 (as amended): for every 32-bit integer [n] that has no bit set
    outside the known bit positions of a feature word, encoding the decoded
    feature set reproduces [n] exactly.  The known positions are [0x3FF] for
    the compatible word, [0x1F7DF] for the incompatible word and [0x3FFF]
    for the read-only-compatible word. *)
Theorem ToInt_FromInt_known_bits (n : Z) (Hn : is_uint32 n) :
  (Z.land n (uint32_not 0x3FF) = 0 ->
   CompatFeatures_ToInt (CompatFeaturesFromInt n) = n)
  /\ (Z.land n (uint32_not 0x1F7DF) = 0 ->
      IncompatFeatures_ToInt (IncompatFeaturesFromInt n) = n)
  /\ (Z.land n (uint32_not 0x3FFF) = 0 ->
      RoCompatFeatures_ToInt (RoCompatFeaturesFromInt n) = n).
Proof.
  repeat split; intros Hout.
  - rewrite CompatFeatures_encode_decode.
    now apply land_known_bits.
  - rewrite IncompatFeatures_encode_decode.
    now apply land_known_bits.
  - rewrite RoCompatFeatures_encode_decode.
    now apply land_known_bits.
Qed.

Lemma ToInt_FromInt_known_bits_witness :
  is_uint32 0x40
  /\ CompatFeatures_ToInt (CompatFeaturesFromInt 0x40) = 0x40
  /\ IncompatFeatures_ToInt (IncompatFeaturesFromInt 0x40) = 0x40
  /\ RoCompatFeatures_ToInt (RoCompatFeaturesFromInt 0x40) = 0x40.
Proof.
  assert (H : is_uint32 0x40) by (unfold is_uint32; lia).
  destruct (ToInt_FromInt_known_bits 0x40 H) as [Hc [Hi Hr]].
  split; [exact H |].
  split; [apply Hc; reflexivity |].
  split; [apply Hi; reflexivity | apply Hr; reflexivity].
Defined.

(** C1 (as stated) fails: the 32-bit integer [0x20000000] has its only bit
    outside the known positions of all three words, and encoding the
    decoded feature set gives [0], not [0x20000000]. *)
Lemma ToInt_FromInt_loses_unknown_bits :
  is_uint32 0x20000000
  /\ CompatFeatures_ToInt (CompatFeaturesFromInt 0x20000000) <> 0x20000000
  /\ IncompatFeatures_ToInt (IncompatFeaturesFromInt 0x20000000) <> 0x20000000
  /\ RoCompatFeatures_ToInt (RoCompatFeaturesFromInt 0x20000000) <> 0x20000000.
Proof.
  split; [unfold is_uint32; lia |].
  repeat split; vm_compute; discriminate.
Qed.

(** C2: for every 32-bit integer [n], encoding the decoded feature set gives
    [n] masked to the known bit positions: [n & 0x3FF] for the compatible
    word, [n & 0x1F7DF] for the incompatible word and [n & 0x3FFF] for the
    read-only-compatible word. *)
Theorem ToInt_FromInt_masks (n : Z) (Hn : is_uint32 n) :
  CompatFeatures_ToInt (CompatFeaturesFromInt n) = Z.land n 0x3FF
  /\ IncompatFeatures_ToInt (IncompatFeaturesFromInt n) = Z.land n 0x1F7DF
  /\ RoCompatFeatures_ToInt (RoCompatFeaturesFromInt n) = Z.land n 0x3FFF.
Proof.
  repeat split.
  - apply CompatFeatures_encode_decode.
  - apply IncompatFeatures_encode_decode.
  - apply RoCompatFeatures_encode_decode.
Qed.

Lemma ToInt_FromInt_masks_witness :
  is_uint32 0xFFFFFFFF
  /\ CompatFeatures_ToInt (CompatFeaturesFromInt 0xFFFFFFFF) = 0x3FF
  /\ IncompatFeatures_ToInt (IncompatFeaturesFromInt 0xFFFFFFFF) = 0x1F7DF
  /\ RoCompatFeatures_ToInt (RoCompatFeaturesFromInt 0xFFFFFFFF) = 0x3FFF.
Proof.
  assert (H : is_uint32 0xFFFFFFFF) by (unfold is_uint32; lia).
  split; [exact H |].
  exact (ToInt_FromInt_masks 0xFFFFFFFF H).
Defined.

(** C3: for every [CompatFeatures], [IncompatFeatures] and
    [RoCompatFeatures] value [s], decoding the encoding of [s] gives back
    [s] exactly. *)
Theorem FromInt_ToInt_roundtrip :
  (forall s : CompatFeatures,
      CompatFeaturesFromInt (CompatFeatures_ToInt s) = s)
  /\ (forall s : IncompatFeatures,
         IncompatFeaturesFromInt (IncompatFeatures_ToInt s) = s)
  /\ (forall s : RoCompatFeatures,
         RoCompatFeaturesFromInt (RoCompatFeatures_ToInt s) = s).
Proof.
  repeat split; intros s.
  - apply CompatFeatures_decode_encode.
  - apply IncompatFeatures_decode_encode.
  - apply RoCompatFeatures_decode_encode.
Qed.

(** C4: for every 32-bit integer [raw] and each of the three decoders, every
    named field of the decoded struct is [(raw & bit) != 0] for the bit
    constant assigned to the field. *)
Theorem FromInt_fields (raw : Z) (Hraw : is_uint32 raw) :
  CompatFeaturesFromInt raw
  = {| DirPrealloc := negb (Z.land raw 0x1 =? 0);
       ImagicInodes := negb (Z.land raw 0x2 =? 0);
       HasJournal := negb (Z.land raw 0x4 =? 0);
       ExtAttr := negb (Z.land raw 0x8 =? 0);
       ResizeInode := negb (Z.land raw 0x10 =? 0);
       DirIndex := negb (Z.land raw 0x20 =? 0);
       LazyBg := negb (Z.land raw 0x40 =? 0);
       ExcludeInode := negb (Z.land raw 0x80 =? 0);
       ExcludeBitmap := negb (Z.land raw 0x100 =? 0);
       SparseV2 := negb (Z.land raw 0x200 =? 0) |}
  /\ IncompatFeaturesFromInt raw
     = {| Compression := negb (Z.land raw 0x1 =? 0);
          DirentFileType := negb (Z.land raw 0x2 =? 0);
          Recovery := negb (Z.land raw 0x4 =? 0);
          JournalDev := negb (Z.land raw 0x8 =? 0);
          MetaBG := negb (Z.land raw 0x10 =? 0);
          Extents := negb (Z.land raw 0x40 =? 0);
          Is64Bit := negb (Z.land raw 0x80 =? 0);
          MMP := negb (Z.land raw 0x100 =? 0);
          FlexBg := negb (Z.land raw 0x200 =? 0);
          ExtAttrInode := negb (Z.land raw 0x400 =? 0);
          DirData := negb (Z.land raw 0x1000 =? 0);
          CsumSeed := negb (Z.land raw 0x2000 =? 0);
          LargeDir := negb (Z.land raw 0x4000 =? 0);
          InlineData := negb (Z.land raw 0x8000 =? 0);
          Encrypted := negb (Z.land raw 0x10000 =? 0) |}
  /\ RoCompatFeaturesFromInt raw
     = {| Sparse := negb (Z.land raw 0x1 =? 0);
          LargeFile := negb (Z.land raw 0x2 =? 0);
          BTreeDir := negb (Z.land raw 0x4 =? 0);
          HugeFile := negb (Z.land raw 0x8 =? 0);
          GdtCsum := negb (Z.land raw 0x10 =? 0);
          DirNlink := negb (Z.land raw 0x20 =? 0);
          ExtraIsize := negb (Z.land raw 0x40 =? 0);
          HasSnapshot := negb (Z.land raw 0x80 =? 0);
          Quota := negb (Z.land raw 0x100 =? 0);
          Bigalloc := negb (Z.land raw 0x200 =? 0);
          MetadataCsum := negb (Z.land raw 0x400 =? 0);
          Replica := negb (Z.land raw 0x800 =? 0);
          ReadOnly := negb (Z.land raw 0x1000 =? 0);
          Project := negb (Z.land raw 0x2000 =? 0) |}.
Proof.
  unfold CompatFeaturesFromInt, IncompatFeaturesFromInt,
    RoCompatFeaturesFromInt.
  rewrite !gtb_land_neq0 by (vm_compute; discriminate).
  repeat split.
Qed.

Lemma FromInt_fields_witness :
  is_uint32 0x284
  /\ HasJournal (CompatFeaturesFromInt 0x284) = true
  /\ Is64Bit (IncompatFeaturesFromInt 0x284) = true
  /\ Bigalloc (RoCompatFeaturesFromInt 0x284) = true
  /\ Extents (IncompatFeaturesFromInt 0x284) = false.
Proof.
  assert (H : is_uint32 0x284) by (unfold is_uint32; lia).
  destruct (FromInt_fields 0x284 H) as [Hc [Hi Hr]].
  split; [exact H |].
  rewrite Hc, Hi, Hr. repeat split.
Defined.

(** C5: for every [CompatFeatures], [IncompatFeatures] and
    [RoCompatFeatures] value [s], [s.ToInt()] is the bitwise OR of the bit
    constants of exactly the fields of [s] that are true: masked with the
    constant of a field, the result is that constant when the field is true
    and [0] when it is false. *)
Theorem ToInt_or_of_true_fields :
  (forall s : CompatFeatures,
      CompatFeatures_ToInt s = or_of_true_fields CompatFeatures_bits s
      /\ Forall (fun e : (CompatFeatures -> bool) * Z =>
                   Z.land (CompatFeatures_ToInt s) (snd e)
                   = if fst e s then snd e else 0)
                CompatFeatures_bits)
  /\ (forall s : IncompatFeatures,
         IncompatFeatures_ToInt s = or_of_true_fields IncompatFeatures_bits s
         /\ Forall (fun e : (IncompatFeatures -> bool) * Z =>
                      Z.land (IncompatFeatures_ToInt s) (snd e)
                      = if fst e s then snd e else 0)
                   IncompatFeatures_bits)
  /\ (forall s : RoCompatFeatures,
         RoCompatFeatures_ToInt s = or_of_true_fields RoCompatFeatures_bits s
         /\ Forall (fun e : (RoCompatFeatures -> bool) * Z =>
                      Z.land (RoCompatFeatures_ToInt s) (snd e)
                      = if fst e s then snd e else 0)
                   RoCompatFeatures_bits).
Proof.
  split; [| split]; intros s; split.
  - rewrite CompatFeatures_ToInt_table. apply or_in_sequence_spec.
  - apply CompatFeatures_ToInt_bits.
  - rewrite IncompatFeatures_ToInt_table. apply or_in_sequence_spec.
  - apply IncompatFeatures_ToInt_bits.
  - rewrite RoCompatFeatures_ToInt_table. apply or_in_sequence_spec.
  - apply RoCompatFeatures_ToInt_bits.
Qed.




(** C7: decoding the incompatible word [0x40] gives the feature set whose
    only true field is [Extents], and decoding the read-only-compatible
    word [0x10] gives the feature set whose only true field is [GdtCsum]. *)
Theorem FromInt_scenario_B :
  IncompatFeaturesFromInt 0x40
  = {| Compression := false; DirentFileType := false; Recovery := false;
       JournalDev := false; MetaBG := false; Extents := true;
       Is64Bit := false; MMP := false; FlexBg := false;
       ExtAttrInode := false; DirData := false; CsumSeed := false;
       LargeDir := false; InlineData := false; Encrypted := false |}
  /\ RoCompatFeaturesFromInt 0x10
     = {| Sparse := false; LargeFile := false; BTreeDir := false;
          HugeFile := false; GdtCsum := true; DirNlink := false;
          ExtraIsize := false; HasSnapshot := false; Quota := false;
          Bigalloc := false; MetadataCsum := false; Replica := false;
          ReadOnly := false; Project := false |}.
Proof. split; reflexivity. Qed.

(** C8: the error-policy values are [Continue = 1], [RemountReadOnly = 2]
    and [Panic = 3]; the creator-OS values are [Linux = 0], [Hurd = 1],
    [Masix = 2], [FreeBSD = 3] and [Lites = 4]. *)
Theorem enumeration_values :
  (Continue = 1 /\ RemountReadOnly = 2 /\ Panic = 3)
  /\ (Linux = 0 /\ Hurd = 1 /\ Masix = 2 /\ FreeBSD = 3 /\ Lites = 4).
Proof. repeat split. Qed.

(** C9: the state codec obeys the laws of the feature codecs.  The known
    state bits are [Umounted = 0x1], [Error = 0x2] and
    [OrphanRecovery = 0x4]; for every [SbState] value [s], decoding the
    encoding of [s] gives [s]; for every 16-bit integer [n], encoding the
    decoded state gives [n & 0x7]. *)
Theorem SbState_codec_laws (s : SbState) (n : Z) (Hn : is_uint16 n) :
  (SbUmounted = 0x1 /\ SbError = 0x2 /\ SbOrphanRecovery = 0x4)
  /\ SbStateFromInt (SbState_ToInt s) = s
  /\ SbState_ToInt (SbStateFromInt n) = Z.land n 0x7.
Proof.
  split; [repeat split |]. split.
  - apply SbState_decode_encode.
  - apply SbState_encode_decode.
Qed.

Lemma SbState_codec_laws_witness :
  is_uint16 0xFFFA
  /\ SbStateFromInt 0x5
     = {| Umounted := true; Error := false; OrphanRecovery := true |}
  /\ SbState_ToInt (SbStateFromInt 0xFFFA) = 0x2.
Proof.
  assert (H : is_uint16 0xFFFA) by (unfold is_uint16; lia).
  destruct (SbState_codec_laws
              {| Umounted := true; Error := false; OrphanRecovery := true |}
              0xFFFA H) as [_ [Hs Hm]].
  split; [exact H |]. split; [exact Hs | exact Hm].
Defined.

(** C10: the known incompatible-feature bits are not contiguous.  No field
    is assigned bit [0x20] or bit [0x800], although [0x10] and [0x40] are
    assigned; so for every 32-bit integer [n] the decoder gives the same
    struct for [n] and for [n & ^uint32(0x20 | 0x800)], and it decodes
    [0x20] to the all-false set. *)
Theorem IncompatFeaturesFromInt_unassigned_bits (n : Z) (Hn : is_uint32 n) :
  Forall (fun e : (IncompatFeatures -> bool) * Z =>
            Z.land (snd e) (Z.lor 0x20 0x800) = 0) IncompatFeatures_bits
  /\ In 0x10 (map snd IncompatFeatures_bits)
  /\ In 0x40 (map snd IncompatFeatures_bits)
  /\ IncompatFeaturesFromInt n
     = IncompatFeaturesFromInt (Z.land n (uint32_not (Z.lor 0x20 0x800)))
  /\ IncompatFeaturesFromInt 0x20
     = {| Compression := false; DirentFileType := false; Recovery := false;
          JournalDev := false; MetaBG := false; Extents := false;
          Is64Bit := false; MMP := false; FlexBg := false;
          ExtAttrInode := false; DirData := false; CsumSeed := false;
          LargeDir := false; InlineData := false; Encrypted := false |}.
Proof.
  split; [each_entry ltac:(reflexivity) |].
  split; [simpl; tauto |].
  split; [simpl; tauto |].
  split; [| reflexivity].
  unfold IncompatFeaturesFromInt.
  rewrite <- !Z.land_assoc. reflexivity.
Qed.

Lemma IncompatFeaturesFromInt_unassigned_bits_witness :
  is_uint32 0x860
  /\ IncompatFeaturesFromInt 0x860 = IncompatFeaturesFromInt 0x40.
Proof.
  assert (H : is_uint32 0x860) by (unfold is_uint32; lia).
  split; [exact H |].
  exact (proj1 (proj2 (proj2 (proj2
    (IncompatFeaturesFromInt_unassigned_bits 0x860 H))))).
Defined.

(** * Further properties of the codecs *)

Lemma land_le_mask (x mask : Z) : 0 <= mask -> 0 <= Z.land x mask <= mask.
Proof.
  intros Hmask. apply Z.ldiff_le; [assumption |].
  apply Z.bits_inj. intros i.
  rewrite Z.ldiff_spec, Z.land_spec, Z.bits_0.
  destruct (Z.testbit x i), (Z.testbit mask i); reflexivity.
Qed.

Lemma land_mask_outside (x mask : Z) :
  Z.land mask 0xFFFFFFFF = mask ->
  Z.land (Z.land x mask) (uint32_not mask) = 0.
Proof.
  intros Hmask. unfold uint32_not. apply Z.bits_inj. intros i.
  rewrite !Z.land_spec, Z.lxor_spec, Z.bits_0.
  assert (Hi : Z.testbit mask i = Z.testbit mask i && Z.testbit 0xFFFFFFFF i)
    by now rewrite <- Z.land_spec, Hmask.
  destruct (Z.testbit x i), (Z.testbit mask i), (Z.testbit 0xFFFFFFFF i);
    simpl in *; congruence.
Qed.

(** ** An encoded struct is its own masked value *)

Lemma CompatFeatures_ToInt_masked (s : CompatFeatures) :
  CompatFeatures_ToInt s = Z.land (CompatFeatures_ToInt s) 0x3FF.
Proof.
  rewrite <- CompatFeatures_encode_decode.
  now rewrite CompatFeatures_decode_encode.
Qed.

Lemma IncompatFeatures_ToInt_masked (s : IncompatFeatures) :
  IncompatFeatures_ToInt s = Z.land (IncompatFeatures_ToInt s) 0x1F7DF.
Proof.
  rewrite <- IncompatFeatures_encode_decode.
  now rewrite IncompatFeatures_decode_encode.
Qed.

Lemma RoCompatFeatures_ToInt_masked (s : RoCompatFeatures) :
  RoCompatFeatures_ToInt s = Z.land (RoCompatFeatures_ToInt s) 0x3FFF.
Proof.
  rewrite <- RoCompatFeatures_encode_decode.
  now rewrite RoCompatFeatures_decode_encode.
Qed.

Lemma SbState_ToInt_masked (s : SbState) :
  SbState_ToInt s = Z.land (SbState_ToInt s) 0x7.
Proof.
  rewrite <- SbState_encode_decode.
  now rewrite SbState_decode_encode.
Qed.

(** ** A decoder reads the masked word only *)

Lemma CompatFeaturesFromInt_masked (n : Z) :
  CompatFeaturesFromInt (Z.land n 0x3FF) = CompatFeaturesFromInt n.
Proof.
  rewrite <- CompatFeatures_encode_decode.
  apply CompatFeatures_decode_encode.
Qed.

Lemma IncompatFeaturesFromInt_masked (n : Z) :
  IncompatFeaturesFromInt (Z.land n 0x1F7DF) = IncompatFeaturesFromInt n.
Proof.
  rewrite <- IncompatFeatures_encode_decode.
  apply IncompatFeatures_decode_encode.
Qed.

Lemma RoCompatFeaturesFromInt_masked (n : Z) :
  RoCompatFeaturesFromInt (Z.land n 0x3FFF) = RoCompatFeaturesFromInt n.
Proof.
  rewrite <- RoCompatFeatures_encode_decode.
  apply RoCompatFeatures_decode_encode.
Qed.

Lemma SbStateFromInt_masked (n : Z) :
  SbStateFromInt (Z.land n 0x7) = SbStateFromInt n.
Proof.
  rewrite <- SbState_encode_decode.
  apply SbState_decode_encode.
Qed.

(** X1: every encoder returns a value between [0] and the OR of its bit
    constants: at most [0x3FF] for [CompatFeatures], [0x1F7DF] for
    [IncompatFeatures], [0x3FFF] for [RoCompatFeatures] and [0x7] for
    [SbState]; so the result always fits the return type. *)
Theorem ToInt_bounds :
  (forall s : CompatFeatures, 0 <= CompatFeatures_ToInt s <= 0x3FF)
  /\ (forall s : IncompatFeatures, 0 <= IncompatFeatures_ToInt s <= 0x1F7DF)
  /\ (forall s : RoCompatFeatures, 0 <= RoCompatFeatures_ToInt s <= 0x3FFF)
  /\ (forall s : SbState, 0 <= SbState_ToInt s <= 0x7).
Proof.
  repeat apply conj; intros s.
  - rewrite CompatFeatures_ToInt_masked. apply land_le_mask. lia.
  - rewrite IncompatFeatures_ToInt_masked. apply land_le_mask. lia.
  - rewrite RoCompatFeatures_ToInt_masked. apply land_le_mask. lia.
  - rewrite SbState_ToInt_masked. apply land_le_mask. lia.
Qed.

(** X2: the encoders are injective: two structs of the same type with the
    same encoding are equal. *)
Theorem ToInt_injective :
  (forall s t : CompatFeatures,
      CompatFeatures_ToInt s = CompatFeatures_ToInt t <-> s = t)
  /\ (forall s t : IncompatFeatures,
         IncompatFeatures_ToInt s = IncompatFeatures_ToInt t <-> s = t)
  /\ (forall s t : RoCompatFeatures,
         RoCompatFeatures_ToInt s = RoCompatFeatures_ToInt t <-> s = t)
  /\ (forall s t : SbState, SbState_ToInt s = SbState_ToInt t <-> s = t).
Proof.
  repeat apply conj; intros s t; split; intros H; try (now subst).
  - rewrite <- (CompatFeatures_decode_encode s),
      <- (CompatFeatures_decode_encode t). now f_equal.
  - rewrite <- (IncompatFeatures_decode_encode s),
      <- (IncompatFeatures_decode_encode t). now f_equal.
  - rewrite <- (RoCompatFeatures_decode_encode s),
      <- (RoCompatFeatures_decode_encode t). now f_equal.
  - rewrite <- (SbState_decode_encode s),
      <- (SbState_decode_encode t). now f_equal.
Qed.

(** X3: a decoder tells two words apart exactly when they differ on a known
    bit: the decoded structs are equal if and only if the words masked with
    the known bits are equal. *)
Theorem FromInt_eq_iff_masked_eq (n m : Z) :
  (CompatFeaturesFromInt n = CompatFeaturesFromInt m
   <-> Z.land n 0x3FF = Z.land m 0x3FF)
  /\ (IncompatFeaturesFromInt n = IncompatFeaturesFromInt m
      <-> Z.land n 0x1F7DF = Z.land m 0x1F7DF)
  /\ (RoCompatFeaturesFromInt n = RoCompatFeaturesFromInt m
      <-> Z.land n 0x3FFF = Z.land m 0x3FFF)
  /\ (SbStateFromInt n = SbStateFromInt m <-> Z.land n 0x7 = Z.land m 0x7).
Proof.
  split; [| split; [| split]]; split; intros H.
  - rewrite <- (CompatFeatures_encode_decode n),
      <- (CompatFeatures_encode_decode m).
    now rewrite H.
  - rewrite <- (CompatFeaturesFromInt_masked n), H.
    apply CompatFeaturesFromInt_masked.
  - rewrite <- (IncompatFeatures_encode_decode n),
      <- (IncompatFeatures_encode_decode m).
    now rewrite H.
  - rewrite <- (IncompatFeaturesFromInt_masked n), H.
    apply IncompatFeaturesFromInt_masked.
  - rewrite <- (RoCompatFeatures_encode_decode n),
      <- (RoCompatFeatures_encode_decode m).
    now rewrite H.
  - rewrite <- (RoCompatFeaturesFromInt_masked n), H.
    apply RoCompatFeaturesFromInt_masked.
  - rewrite <- (SbState_encode_decode n),
      <- (SbState_encode_decode m).
    now rewrite H.
  - rewrite <- (SbStateFromInt_masked n), H.
    apply SbStateFromInt_masked.
Qed.

Lemma land_small (n w : Z) :
  0 <= w -> 0 <= n < 2 ^ w -> Z.land n (Z.ones w) = n.
Proof. intros Hw Hn. rewrite Z.land_ones by assumption. now apply Z.mod_small. Qed.

(** X4: the values an encoder can return are exactly the words of its type
    with no bit outside the known bits: a 32-bit [n] is the encoding of some
    feature struct if and only if [n & ^mask == 0], and [n] is the encoding
    of some [SbState] if and only if [0 <= n <= 7]. *)
Theorem ToInt_image (n : Z) :
  ((exists s, CompatFeatures_ToInt s = n)
   <-> is_uint32 n /\ Z.land n (uint32_not 0x3FF) = 0)
  /\ ((exists s, IncompatFeatures_ToInt s = n)
      <-> is_uint32 n /\ Z.land n (uint32_not 0x1F7DF) = 0)
  /\ ((exists s, RoCompatFeatures_ToInt s = n)
      <-> is_uint32 n /\ Z.land n (uint32_not 0x3FFF) = 0)
  /\ ((exists s, SbState_ToInt s = n) <-> 0 <= n <= 0x7).
Proof.
  split; [| split; [| split]]; split.
  - intros [s <-]. split; [apply CompatFeatures_ToInt_uint32 |].
    rewrite CompatFeatures_ToInt_masked. now apply land_mask_outside.
  - intros [Hn Hout]. exists (CompatFeaturesFromInt n).
    rewrite CompatFeatures_encode_decode. now apply land_known_bits.
  - intros [s <-]. split; [apply IncompatFeatures_ToInt_uint32 |].
    rewrite IncompatFeatures_ToInt_masked. now apply land_mask_outside.
  - intros [Hn Hout]. exists (IncompatFeaturesFromInt n).
    rewrite IncompatFeatures_encode_decode. now apply land_known_bits.
  - intros [s <-]. split; [apply RoCompatFeatures_ToInt_uint32 |].
    rewrite RoCompatFeatures_ToInt_masked. now apply land_mask_outside.
  - intros [Hn Hout]. exists (RoCompatFeaturesFromInt n).
    rewrite RoCompatFeatures_encode_decode. now apply land_known_bits.
  - intros [s <-]. rewrite SbState_ToInt_masked. apply land_le_mask. lia.
  - intros Hn. exists (SbStateFromInt n).
    rewrite SbState_encode_decode. apply (land_small n 3); lia.
Qed.

(** X5: the empty set and the zero word correspond.  An encoder returns [0]
    exactly for the struct with every field false, and a decoder returns
    that struct exactly for the words with no known bit set. *)
Theorem zero_iff (n : Z) :
  ((forall s, CompatFeatures_ToInt s = 0 <-> s = CompatFeatures_zero)
   /\ (CompatFeaturesFromInt n = CompatFeatures_zero
       <-> Z.land n 0x3FF = 0))
  /\ ((forall s, IncompatFeatures_ToInt s = 0 <-> s = IncompatFeatures_zero)
      /\ (IncompatFeaturesFromInt n = IncompatFeatures_zero
          <-> Z.land n 0x1F7DF = 0))
  /\ ((forall s, RoCompatFeatures_ToInt s = 0 <-> s = RoCompatFeatures_zero)
      /\ (RoCompatFeaturesFromInt n = RoCompatFeatures_zero
          <-> Z.land n 0x3FFF = 0))
  /\ ((forall s, SbState_ToInt s = 0 <-> s = SbState_zero)
      /\ (SbStateFromInt n = SbState_zero <-> Z.land n 0x7 = 0)).
Proof.
  split; [| split; [| split]]; (split; [intros s |]); split; intros H.
  - rewrite <- (CompatFeatures_decode_encode s), H. reflexivity.
  - now subst.
  - rewrite <- CompatFeatures_encode_decode, H. reflexivity.
  - rewrite <- CompatFeaturesFromInt_masked, H. reflexivity.
  - rewrite <- (IncompatFeatures_decode_encode s), H. reflexivity.
  - now subst.
  - rewrite <- IncompatFeatures_encode_decode, H. reflexivity.
  - rewrite <- IncompatFeaturesFromInt_masked, H. reflexivity.
  - rewrite <- (RoCompatFeatures_decode_encode s), H. reflexivity.
  - now subst.
  - rewrite <- RoCompatFeatures_encode_decode, H. reflexivity.
  - rewrite <- RoCompatFeaturesFromInt_masked, H. reflexivity.
  - rewrite <- (SbState_decode_encode s), H. reflexivity.
  - now subst.
  - rewrite <- SbState_encode_decode, H. reflexivity.
  - rewrite <- SbStateFromInt_masked, H. reflexivity.
Qed.

(** Reads one field of a decoded word as a bit test and concludes with the
    bit-level fact [spec]. *)
Ltac field_of_word spec :=
  cbn [fst snd];
  unfold CompatFeaturesFromInt, IncompatFeaturesFromInt,
    RoCompatFeaturesFromInt, SbStateFromInt;
  simpl; decode_bits; apply spec.

(** X6: the decoders turn the bit operations on words into the boolean
    operations on fields: every field decoded from [a | b] is the
    disjunction, and every field decoded from [a & b] the conjunction, of
    that field decoded from [a] and from [b]. *)
Theorem FromInt_lor_land (a b : Z) :
  (Forall (fun e : (CompatFeatures -> bool) * Z =>
             fst e (CompatFeaturesFromInt (Z.lor a b))
             = fst e (CompatFeaturesFromInt a)
               || fst e (CompatFeaturesFromInt b))
          CompatFeatures_bits
   /\ Forall (fun e : (CompatFeatures -> bool) * Z =>
                fst e (CompatFeaturesFromInt (Z.land a b))
                = fst e (CompatFeaturesFromInt a)
                  && fst e (CompatFeaturesFromInt b))
             CompatFeatures_bits)
  /\ (Forall (fun e : (IncompatFeatures -> bool) * Z =>
                fst e (IncompatFeaturesFromInt (Z.lor a b))
                = fst e (IncompatFeaturesFromInt a)
                  || fst e (IncompatFeaturesFromInt b))
             IncompatFeatures_bits
      /\ Forall (fun e : (IncompatFeatures -> bool) * Z =>
                   fst e (IncompatFeaturesFromInt (Z.land a b))
                   = fst e (IncompatFeaturesFromInt a)
                     && fst e (IncompatFeaturesFromInt b))
                IncompatFeatures_bits)
  /\ (Forall (fun e : (RoCompatFeatures -> bool) * Z =>
                fst e (RoCompatFeaturesFromInt (Z.lor a b))
                = fst e (RoCompatFeaturesFromInt a)
                  || fst e (RoCompatFeaturesFromInt b))
             RoCompatFeatures_bits
      /\ Forall (fun e : (RoCompatFeatures -> bool) * Z =>
                   fst e (RoCompatFeaturesFromInt (Z.land a b))
                   = fst e (RoCompatFeaturesFromInt a)
                     && fst e (RoCompatFeaturesFromInt b))
                RoCompatFeatures_bits)
  /\ (Forall (fun e : (SbState -> bool) * Z =>
                fst e (SbStateFromInt (Z.lor a b))
                = fst e (SbStateFromInt a) || fst e (SbStateFromInt b))
             SbState_bits
      /\ Forall (fun e : (SbState -> bool) * Z =>
                   fst e (SbStateFromInt (Z.land a b))
                   = fst e (SbStateFromInt a) && fst e (SbStateFromInt b))
                SbState_bits).
Proof.
  split; [| split; [| split]]; split;
    first [ each_entry ltac:(field_of_word Z.lor_spec)
          | each_entry ltac:(field_of_word Z.land_spec) ].
Qed.

(** X7: re-encoding a decoded word gives the word back exactly when the
    word has no bit outside the known bits: for a 32-bit [n] and each
    feature codec, [FromInt(n).ToInt() == n] if and only if
    [n & ^mask == 0]; for a 16-bit [m], [SbStateFromInt(m).ToInt() == m] if
    and only if [m <= 7]. *)
Theorem ToInt_FromInt_fixed_iff (n m : Z)
    (Hn : is_uint32 n) (Hm : is_uint16 m) :
  (CompatFeatures_ToInt (CompatFeaturesFromInt n) = n
   <-> Z.land n (uint32_not 0x3FF) = 0)
  /\ (IncompatFeatures_ToInt (IncompatFeaturesFromInt n) = n
      <-> Z.land n (uint32_not 0x1F7DF) = 0)
  /\ (RoCompatFeatures_ToInt (RoCompatFeaturesFromInt n) = n
      <-> Z.land n (uint32_not 0x3FFF) = 0)
  /\ (SbState_ToInt (SbStateFromInt m) = m <-> m <= 0x7).
Proof.
  rewrite CompatFeatures_encode_decode, IncompatFeatures_encode_decode,
    RoCompatFeatures_encode_decode, SbState_encode_decode.
  split; [| split; [| split]]; split; intros H;
    try (rewrite <- H; now apply land_mask_outside);
    try (now apply land_known_bits).
  - rewrite <- H. apply land_le_mask. lia.
  - apply (land_small m 3); unfold is_uint16 in Hm; lia.
Qed.

Lemma ToInt_FromInt_fixed_iff_witness :
  is_uint32 0x1F7DF /\ is_uint16 0x8
  /\ IncompatFeatures_ToInt (IncompatFeaturesFromInt 0x1F7DF) = 0x1F7DF
  /\ SbState_ToInt (SbStateFromInt 0x8) <> 0x8.
Proof.
  assert (Hn : is_uint32 0x1F7DF) by (unfold is_uint32; lia).
  assert (Hm : is_uint16 0x8) by (unfold is_uint16; lia).
  destruct (ToInt_FromInt_fixed_iff 0x1F7DF 0x8 Hn Hm) as [_ [Hi [_ Hs]]].
  split; [exact Hn |]. split; [exact Hm |]. split.
  - apply Hi. reflexivity.
  - intros H. apply Hs in H. lia.
Defined.
